(** * The MotherDuck MCP serverless handlers

    A shallow embedding of the two HTTP entry points of the repository:

    - [Secured.handler]   (api/index.js): bearer-token check, API-key check,
      then delegation to [startMotherDuckMCP];
    - [Unsecured.handler] (the second, unnamed source file): delegation only.

    JavaScript strings are sequences of UTF-16 code units, [process.env] and
    [req.headers] are finite maps from names to strings, and a handler is a
    computation in a small state-and-exception monad: it runs against the
    response object it shares with the delegate, records the calls the
    handler makes on the outside world ([res.status], [.json],
    [console.error] and the delegate), and ends normally, by a throw, or
    suspended at its [await]. *)

From Stdlib Require Import NArith ZArith Ascii String List Bool.
From stdpp Require Import base option list strings gmap.

Local Open Scope N_scope.

(** ** JavaScript strings *)

(** A string value is its sequence of UTF-16 code units. *)
Abbreviation jsstring := (list N).

Module JS.

(** A source literal, written as a Rocq string of ASCII characters. *)
Definition lit (s : string) : jsstring :=
  map N_of_ascii (list_ascii_of_string s).

(** ECMAScript [WhiteSpace] and [LineTerminator] code points, the ones
    [String.prototype.trim] strips. All of them are single code units. *)
Definition is_white_space (c : N) : bool :=
  match c with
  | 9 | 10 | 11 | 12 | 13 | 32 | 160 => true
  | 5760 | 8232 | 8233 | 8239 | 8287 | 12288 | 65279 => true
  | _ => (8192 <=? c) && (c <=? 8202)
  end.

Fixpoint trimStart (s : jsstring) : jsstring :=
  match s with
  | c :: s' => if is_white_space c then trimStart s' else s
  | [] => []
  end.

Definition trimEnd (s : jsstring) : jsstring :=
  rev (trimStart (rev s)).

(** [s.trim()] *)
Definition trim (s : jsstring) : jsstring :=
  trimEnd (trimStart s).

(** [strip_prefix p s] is [Some r] when [s = p ++ r]. *)
Fixpoint strip_prefix (p s : jsstring) : option jsstring :=
  match p, s with
  | [], _ => Some s
  | a :: p', b :: s' => if N.eqb a b then strip_prefix p' s' else None
  | _ :: _, [] => None
  end.

(** [s.replace(pat, rep)] with a string pattern: the first occurrence of
    [pat] in [s], wherever it starts, is replaced; without an occurrence [s]
    is returned as it is. ([rep] is only ever the empty string here, so the
    dollar patterns of the replacement text play no part.) *)
Fixpoint replace (pat rep s : jsstring) : jsstring :=
  match strip_prefix pat s with
  | Some rest => rep ++ rest
  | None =>
      match s with
      | [] => []
      | c :: s' => c :: replace pat rep s'
      end
  end.

(** Truthiness of a string: every string but the empty one. *)
Definition truthy (s : jsstring) : bool :=
  match s with [] => false | _ :: _ => true end.

(** A value that is a string or [undefined] ([None]). *)
Definition truthy_opt (o : option jsstring) : bool :=
  match o with Some s => truthy s | None => false end.

(** [o || d] for a string-or-undefined [o] and a string [d]. *)
Definition or_else (o : option jsstring) (d : jsstring) : jsstring :=
  match o with
  | Some s => if truthy s then s else d
  | None => d
  end.

(** [s !== o] for a string [s] and a string-or-undefined [o]. *)
Definition strict_neq (s : jsstring) (o : option jsstring) : bool :=
  match o with
  | Some s' => negb (bool_decide (s = s'))
  | None => true
  end.

(** The values the handlers pass around besides plain strings: what a
    delegate may throw and what is handed to [res.json] and
    [console.error]. An object is given by its readable properties. *)
#[warnings="-register-all"]
Inductive value : Type :=
  | Undefined
  | Null
  | Str (s : jsstring)
  | Obj (props : list (string * value)).

Fixpoint assoc (k : string) (props : list (string * value)) : value :=
  match props with
  | [] => Undefined
  | (k', v) :: rest => if String.eqb k k' then v else assoc k rest
  end.

(** [v.k]: reading a property of [undefined] or [null] raises a TypeError
    ([None]); a primitive string has none of the properties read here. *)
Definition get (v : value) (k : string) : option value :=
  match v with
  | Undefined | Null => None
  | Str _ => Some Undefined
  | Obj props => Some (assoc k props)
  end.

(** The TypeError raised by a failed property read (its message text is
    the engine's and is left out). *)
Definition type_error : value :=
  Obj [("name"%string, Str (lit "TypeError"))].

End JS.

(** ** The outside world *)

(** [process.env]: the names that are set, each with its string value. *)
Abbreviation environment := (gmap string jsstring).

(** The incoming request, as far as the handlers look into it:
    [req.headers], keyed by the lower-cased header name. *)
Record request : Type := { headers : gmap string jsstring }.

(** The argument object of [startMotherDuckMCP]. Its [res] member is the
    response object of the invocation, the one the handler's own
    [res.status] and [.json] calls go to. *)
Record mcp_options : Type := {
  opt_req : request;
  opt_token : option jsstring;
  opt_database : jsstring
}.

(** How the promise returned by the delegate settles. *)
Inductive settlement : Type :=
  | Fulfilled
  | Rejected (err : JS.value)
  | NeverSettles.

(** The imported delegate, as far as a handler can observe it: how the
    promise it returns settles, and whether it has started the response
    (written its head, so that [res.headersSent] holds) by then. Applied to
    its options, a delegate stands for the settlement of its promise. *)
Record delegate : Type := {
  settles :> mcp_options -> settlement;
  starts_response : mcp_options -> bool
}.

(** A delegate that behaves the same for all options. *)
Definition always (p : settlement) (started : bool) : delegate :=
  {| settles := fun _ => p; starts_response := fun _ => started |}.

(** The state of the response object the handlers' calls depend on. Both
    the handler and the delegate hold the same object. *)
Record response : Type := { headersSent : bool }.

(** The response as the runtime hands it to a handler: nothing written. *)
Definition fresh : response := {| headersSent := false |}.

(** The calls a handler makes, in program order. *)
Inductive event : Type :=
  | EStatus (code : Z)                     (* res.status(code) *)
  | EJson (body : JS.value)                (* .json(body) *)
  | EStart (options : mcp_options)         (* startMotherDuckMCP(options) *)
  | EConsoleError (args : list JS.value).  (* console.error(...args) *)

(** ** Computations *)

(** A computation ends normally with a result, abruptly with a thrown
    value, or stays suspended at an [await] for ever. *)
Inductive completion (A : Type) : Type :=
  | Normal (a : A)
  | Thrown (err : JS.value)
  | Suspended.
Arguments Normal {A} a.
Arguments Thrown {A} err.
Arguments Suspended {A}.

(** A run: the calls that were made, and the way the run ended. *)
Definition M (A : Type) : Type := (list event * completion A)%type.

(** A computation is run against the response object: it finds the
    response in one state and leaves it in another. *)
Definition Js (A : Type) : Type := response -> response * M A.

#[export] Instance Js_ret : MRet Js := fun A a res => (res, ([], Normal a)).

#[export] Instance Js_bind : MBind Js := fun A B k m res =>
  match m res with
  | (res1, (tr, Normal a)) =>
      let '(res2, (tr', c)) := k a res1 in (res2, (tr ++ tr', c))
  | (res1, (tr, Thrown err)) => (res1, (tr, Thrown err))
  | (res1, (tr, Suspended)) => (res1, (tr, Suspended))
  end.

Definition throw {A} (err : JS.value) : Js A :=
  fun res => (res, ([], Thrown err)).

Definition emit (e : event) : Js unit :=
  fun res => (res, ([e], Normal tt)).

(** [try { body } catch (err) { handle err }] *)
Definition try_catch {A} (body : Js A) (handle : JS.value -> Js A) : Js A :=
  fun res =>
    match body res with
    | (res1, (tr, Thrown err)) =>
        let '(res2, (tr', c)) := handle err res1 in (res2, (tr ++ tr', c))
    | settled => settled
    end.

(** The run of a handler body on the response of a new invocation. *)
Definition run {A} (body : Js A) : M A := snd (body fresh).

(** The calls a computation made, and how it ended. *)
Definition trace {A} (m : M A) : list event := fst m.
Definition outcome {A} (m : M A) : completion A := snd m.

(** The argument objects of the delegate's invocations, in order. *)
Fixpoint invocations (tr : list event) : list mcp_options :=
  match tr with
  | [] => []
  | EStart o :: tr' => o :: invocations tr'
  | _ :: tr' => invocations tr'
  end.

(** The status codes the handler set, in order. *)
Fixpoint statuses (tr : list event) : list Z :=
  match tr with
  | [] => []
  | EStatus c :: tr' => c :: statuses tr'
  | _ :: tr' => statuses tr'
  end.

(** The objects handed to [.json], in order. *)
Fixpoint bodies (tr : list event) : list JS.value :=
  match tr with
  | [] => []
  | EJson b :: tr' => b :: bodies tr'
  | _ :: tr' => bodies tr'
  end.

(** The argument lists of the [console.error] calls, in order. *)
Fixpoint logged (tr : list event) : list (list JS.value) :=
  match tr with
  | [] => []
  | EConsoleError args :: tr' => args :: logged tr'
  | _ :: tr' => logged tr'
  end.

(** ** The handlers *)

(** The error Node raises when a header is set on a response whose head
    has been written. *)
Definition headers_sent_error : JS.value :=
  JS.Obj [("name", JS.Str (JS.lit "Error"));
          ("code", JS.Str (JS.lit "ERR_HTTP_HEADERS_SENT"));
          ("message",
           JS.Str (JS.lit "Cannot set headers after they are sent to the client"))].

(** [res.status(code)] assigns [res.statusCode] and returns [res], so that
    [.json(body)] is the next call on the same object; the assignment
    cannot fail. *)
Definition res_status (code : Z) : Js unit := emit (EStatus code).

(** [.json(body)] sets the content type and sends the serialized body.
    On a response whose head has been written already, setting the header
    throws; otherwise the body goes out and the head is written now. (The
    bodies of the handlers are strings and plain objects, which serialize.) *)
Definition res_json (body : JS.value) : Js unit :=
  fun res =>
    if headersSent res
    then (res, ([EJson body], Thrown headers_sent_error))
    else ({| headersSent := true |}, ([EJson body], Normal tt)).

Definition console_error (args : list JS.value) : Js unit :=
  emit (EConsoleError args).

(** [err.message], raising the TypeError of a read on [undefined]/[null]. *)
Definition message_of (err : JS.value) : Js JS.value :=
  match JS.get err "message" with
  | Some v => mret v
  | None => throw JS.type_error
  end.

(** [await p]: the result of a fulfilled promise, the reason of a rejected
    one thrown at the [await], no continuation for one that never settles. *)
Definition await (p : settlement) : Js unit :=
  match p with
  | Fulfilled => mret tt
  | Rejected err => throw err
  | NeverSettles => fun res => (res, ([], Suspended))
  end.

(** A call of the delegate: the handler hands over [options], the delegate
    answers with a promise. What the delegate writes to [res] is not a call
    of the handler and is not in the handler's trace; it shows in the state
    of the response once the promise has settled. *)
Definition call (start : delegate) (options : mcp_options) : Js settlement :=
  fun res =>
    ({| headersSent := headersSent res || starts_response start options |},
     ([EStart options], Normal (start options))).

(** api/index.js *)
Module Secured.
Section Handler.
(** [process.env] and the imported delegate. *)
Variable env : environment.
Variable startMotherDuckMCP : delegate.

(** [const authHeader = req.headers['authorization'] || '';] *)
Definition authHeader (req : request) : jsstring :=
  JS.or_else (headers req !! "authorization") (JS.lit "").

(** [const token = authHeader.replace('Bearer ', '').trim();] *)
Definition token (req : request) : jsstring :=
  JS.trim (JS.replace (JS.lit "Bearer ") (JS.lit "") (authHeader req)).

(** [!token || token !== process.env.API_BEARER_TOKEN] *)
Definition unauthorized (req : request) : bool :=
  negb (JS.truthy (token req))
  || JS.strict_neq (token req) (env !! "API_BEARER_TOKEN").

Definition handler (req : request) : M unit :=
  run (try_catch
    (if unauthorized req then
       res_status 401 ;;
       res_json (JS.Obj [("error", JS.Str (JS.lit "Unauthorized"))])
     else if negb (JS.truthy_opt (env !! "MOTHERDUCK_API_KEY")) then
       res_status 500 ;;
       res_json (JS.Obj [("error",
                   JS.Str (JS.lit "Missing MOTHERDUCK_API_KEY env var"))])
     else
       p ← call startMotherDuckMCP
         {| opt_req := req;
            opt_token := env !! "MOTHERDUCK_API_KEY";
            opt_database :=
              JS.or_else (env !! "MOTHERDUCK_DATABASE") (JS.lit "default") |};
       await p)
    (fun err =>
       console_error [JS.Str (JS.lit "MotherDuck MCP Error:"); err] ;;
       res_status 500 ;;
       details ← message_of err;
       res_json (JS.Obj [("error", JS.Str (JS.lit "Internal MCP Server Error"));
                         ("details", details)]))).
End Handler.
End Secured.

(** The unsecured entry point: the same delegation without the two checks. *)
Module Unsecured.
Section Handler.
Variable env : environment.
Variable startMotherDuckMCP : delegate.

Definition handler (req : request) : M unit :=
  run (try_catch
    (p ← call startMotherDuckMCP
       {| opt_req := req;
          opt_token := env !! "MOTHERDUCK_API_KEY";
          opt_database :=
            JS.or_else (env !! "MOTHERDUCK_DATABASE") (JS.lit "default") |};
     await p)
    (fun err =>
       console_error [JS.Str (JS.lit "MotherDuck MCP Error:"); err] ;;
       res_status 500 ;;
       res_json (JS.Obj [("error", JS.Str (JS.lit "Internal MCP Server Error"))]))).
End Handler.
End Unsecured.

(** ** The specification's wording of the bearer token *)

(** What follows a leading ["Bearer "] in the header value, trimmed, and
    no token at all for a value that does not start with that prefix. *)
Definition token_after_prefix (req : request) : jsstring :=
  match JS.strip_prefix (JS.lit "Bearer ") (Secured.authHeader req) with
  | Some rest => JS.trim rest
  | None => []
  end.

(** The argument object both handlers build for the delegate. *)
Definition delegate_options (env : environment) (req : request) : mcp_options :=
  {| opt_req := req;
     opt_token := env !! "MOTHERDUCK_API_KEY";
     opt_database :=
       match env !! "MOTHERDUCK_DATABASE" with
       | Some (c :: d) => c :: d
       | _ => JS.lit "default"
       end |}.

(** Whether [res.status(401)] is among the calls of a run. *)
Definition answers_401 (m : M unit) : Prop := 401%Z ∈ statuses (trace m).

(** Strings made of white space only. *)
Abbreviation blank := (Forall (fun c : N => JS.is_white_space c = true)).

(** The object literal [{ error: msg }]. *)
Definition error_body (msg : string) : JS.value :=
  JS.Obj [("error"%string, JS.Str (JS.lit msg))].

(** * Properties *)

(** ** Strings *)

Lemma truthy_false (s : jsstring) : JS.truthy s = false <-> s = [].
Proof. destruct s; simpl; split; congruence. Qed.

Lemma truthy_opt_false (o : option jsstring) :
  JS.truthy_opt o = false <-> o = None \/ o = Some [].
Proof.
  destruct o as [s|]; simpl.
  - rewrite truthy_false. split.
    + intros ->. now right.
    + intros [H|H]; congruence.
  - split; auto.
Qed.

Lemma strict_neq_false (s : jsstring) (o : option jsstring) :
  JS.strict_neq s o = false <-> o = Some s.
Proof.
  destruct o as [s'|]; simpl.
  - rewrite negb_false_iff, bool_decide_eq_true. split; congruence.
  - split; congruence.
Qed.

Lemma or_else_empty (o : option jsstring) :
  JS.or_else o [] = default [] o.
Proof. destruct o as [[|c s]|]; reflexivity. Qed.

Lemma or_else_cases (o : option jsstring) (d : jsstring) :
  JS.or_else o d = match o with Some (c :: s) => c :: s | _ => d end.
Proof. destruct o as [[|c s]|]; reflexivity. Qed.

Lemma strip_prefix_app (p r : jsstring) : JS.strip_prefix p (p ++ r) = Some r.
Proof.
  induction p as [|a p IH]; simpl.
  - now destruct r.
  - now rewrite N.eqb_refl.
Qed.

Lemma strip_prefix_Some (p s r : jsstring) :
  JS.strip_prefix p s = Some r -> s = p ++ r.
Proof.
  revert s. induction p as [|a p IH]; intros s H.
  - destruct s; simpl in H; injection H as <-; reflexivity.
  - destruct s as [|b s]; simpl in H; [discriminate|].
    destruct (N.eqb_spec a b) as [->|]; [|discriminate].
    simpl. f_equal. now apply IH.
Qed.

(** [trimStart] drops a run of white space and stops at the first code
    unit that is none. *)
Lemma trimStart_split (s : jsstring) :
  exists l, s = l ++ JS.trimStart s /\ Forall (fun c => JS.is_white_space c = true) l.
Proof.
  induction s as [|c s [l [Hs Hl]]]; simpl.
  - now exists [].
  - destruct (JS.is_white_space c) eqn:Hc.
    + exists (c :: l). split; [simpl; congruence | now constructor].
    + now exists [].
Qed.

Lemma trimStart_head (s r : jsstring) (c : N) :
  JS.trimStart s = c :: r -> JS.is_white_space c = false.
Proof.
  induction s as [|c' s IH]; simpl; [discriminate|].
  destruct (JS.is_white_space c') eqn:Hc; [assumption|].
  intros [= -> _]. assumption.
Qed.

(** [trim] removes white space at both ends and nothing else. *)
Lemma trim_split (s : jsstring) :
  exists l r,
    s = l ++ JS.trim s ++ r
    /\ Forall (fun c => JS.is_white_space c = true) l
    /\ Forall (fun c => JS.is_white_space c = true) r.
Proof.
  destruct (trimStart_split s) as [l [Hs Hl]].
  destruct (trimStart_split (rev (JS.trimStart s))) as [r [Hu Hr]].
  exists l, (rev r). repeat split; [|assumption|now apply Forall_rev].
  unfold JS.trim, JS.trimEnd. rewrite <- rev_app_distr, <- Hu, rev_involutive.
  assumption.
Qed.

Lemma trim_last (s t : jsstring) (c : N) :
  JS.trim s = t ++ [c] -> JS.is_white_space c = false.
Proof.
  unfold JS.trim, JS.trimEnd. intros H.
  apply (f_equal (@rev N)) in H. rewrite rev_involutive, rev_unit in H.
  now apply trimStart_head in H.
Qed.

Lemma trim_head (s t : jsstring) (c : N) :
  JS.trim s = c :: t -> JS.is_white_space c = false.
Proof.
  intros H.
  destruct (trimStart_split (rev (JS.trimStart s))) as [r [Hu _]].
  apply (f_equal (@rev N)) in Hu. rewrite rev_involutive, rev_app_distr in Hu.
  fold (JS.trimEnd (JS.trimStart s)) in Hu. fold (JS.trim s) in Hu.
  rewrite H in Hu. simpl in Hu. now apply trimStart_head in Hu.
Qed.

(** A pattern at the very start of the string is the occurrence replaced. *)
Lemma replace_prefix (p rep r : jsstring) :
  JS.replace p rep (p ++ r) = rep ++ r.
Proof.
  destruct (p ++ r) as [|c s] eqn:E; simpl JS.replace;
    rewrite <- E, strip_prefix_app; reflexivity.
Qed.

(** The first occurrence is the one replaced, wherever it starts. *)
Lemma replace_first (p rep a b : jsstring) :
  (forall a' b', a ++ p ++ b = a' ++ p ++ b' -> length a <= length a')%nat ->
  JS.replace p rep (a ++ p ++ b) = a ++ rep ++ b.
Proof.
  induction a as [|c a IH]; intros Hfirst.
  - exact (replace_prefix p rep b).
  - simpl app. simpl JS.replace.
    destruct (JS.strip_prefix p (c :: a ++ p ++ b)) as [r|] eqn:E.
    + apply strip_prefix_Some in E.
      specialize (Hfirst [] r E). simpl in Hfirst. lia.
    + f_equal. apply IH. intros a' b' H.
      specialize (Hfirst (c :: a') b'). simpl in Hfirst.
      rewrite H in Hfirst. specialize (Hfirst eq_refl). lia.
Qed.

(** A string in which the pattern does not occur is left as it is. *)
Lemma replace_absent (p rep s : jsstring) :
  (forall a b, s <> a ++ p ++ b) -> JS.replace p rep s = s.
Proof.
  induction s as [|c s IH]; intros Habs.
  - simpl. destruct (JS.strip_prefix p []) as [r|] eqn:E; [|reflexivity].
    apply strip_prefix_Some in E. now destruct (Habs [] r).
  - simpl. destruct (JS.strip_prefix p (c :: s)) as [r|] eqn:E.
    + apply strip_prefix_Some in E. now destruct (Habs [] r).
    + f_equal. apply IH. intros a b ->. now apply (Habs (c :: a) b).
Qed.

(** ** Runs of the secured handler *)

Section SecuredRuns.
Context (env : environment) (start : delegate).
Context (req : request).

Lemma unauthorized_true :
  Secured.unauthorized env req = true <->
  Secured.token req = [] \/ env !! "API_BEARER_TOKEN" <> Some (Secured.token req).
Proof.
  unfold Secured.unauthorized.
  rewrite orb_true_iff, negb_true_iff, truthy_false.
  rewrite <- not_false_iff_true, strict_neq_false. reflexivity.
Qed.

Lemma unauthorized_false :
  Secured.unauthorized env req = false <->
  Secured.token req <> [] /\ env !! "API_BEARER_TOKEN" = Some (Secured.token req).
Proof.
  unfold Secured.unauthorized.
  rewrite orb_false_iff, negb_false_iff, strict_neq_false.
  rewrite <- not_false_iff_true, truthy_false. reflexivity.
Qed.

Lemma token_absent_header :
  headers req !! "authorization" = None -> Secured.token req = [].
Proof. unfold Secured.token, Secured.authHeader. now intros ->. Qed.

Lemma authHeader_present (h : jsstring) :
  headers req !! "authorization" = Some h -> Secured.authHeader req = h.
Proof. unfold Secured.authHeader. intros ->. now rewrite or_else_empty. Qed.

Lemma token_present (h : jsstring) :
  headers req !! "authorization" = Some h ->
  Secured.token req = JS.trim (JS.replace (JS.lit "Bearer ") (JS.lit "") h).
Proof. unfold Secured.token. intros H. now rewrite (authHeader_present h H). Qed.

(** The 401 branch. *)
Lemma run_unauthorized :
  Secured.unauthorized env req = true ->
  Secured.handler env start req =
    ([EStatus 401; EJson (error_body "Unauthorized")], Normal tt).
Proof. unfold Secured.handler. now intros ->. Qed.

(** The missing-key branch. *)
Lemma run_missing_key :
  Secured.unauthorized env req = false ->
  JS.truthy_opt (env !! "MOTHERDUCK_API_KEY") = false ->
  Secured.handler env start req =
    ([EStatus 500; EJson (error_body "Missing MOTHERDUCK_API_KEY env var")],
     Normal tt).
Proof. unfold Secured.handler. now intros -> ->. Qed.

(** The delegating branch, by the way the delegate's promise settles and,
    for the catch block, by what [err.message] gives and whether the
    delegate has started the response. *)
Lemma run_delegate :
  Secured.unauthorized env req = false ->
  JS.truthy_opt (env !! "MOTHERDUCK_API_KEY") = true ->
  Secured.handler env start req =
    let o := delegate_options env req in
    match start o with
    | Fulfilled => ([EStart o], Normal tt)
    | NeverSettles => ([EStart o], Suspended)
    | Rejected err =>
        let log :=
          EConsoleError [JS.Str (JS.lit "MotherDuck MCP Error:"); err] in
        match JS.get err "message" with
        | Some details =>
            ([EStart o; log; EStatus 500;
              EJson (JS.Obj
                [("error"%string, JS.Str (JS.lit "Internal MCP Server Error"));
                 ("details"%string, details)])],
             if starts_response start o
             then Thrown headers_sent_error else Normal tt)
        | None => ([EStart o; log; EStatus 500], Thrown JS.type_error)
        end
    end.
Proof.
  intros Hauth Hkey. unfold Secured.handler.
  rewrite Hauth, Hkey, or_else_cases. simpl negb. cbv iota.
  change {| opt_req := req |} with (delegate_options env req).
  generalize (delegate_options env req) as o. intros o. cbv zeta.
  unfold run, try_catch, call, mbind, Js_bind, emit, mret, Js_ret, fresh.
  simpl.
  destruct (start o) as [|err|]; simpl; [reflexivity| |reflexivity].
  unfold message_of. destruct (JS.get err "message"); simpl; [|reflexivity].
  unfold res_json. simpl. now destruct (starts_response start o).
Qed.
End SecuredRuns.

(** ** Runs of the unsecured handler *)

Section UnsecuredRuns.
Context (env : environment) (start : delegate).
Context (req : request).

(** There is one path only: the delegate is called first, whatever the
    environment and the request are. *)
Lemma run_unsecured :
  Unsecured.handler env start req =
    let o := delegate_options env req in
    match start o with
    | Fulfilled => ([EStart o], Normal tt)
    | NeverSettles => ([EStart o], Suspended)
    | Rejected err =>
        ([EStart o;
          EConsoleError [JS.Str (JS.lit "MotherDuck MCP Error:"); err];
          EStatus 500;
          EJson (error_body "Internal MCP Server Error")],
         if starts_response start o
         then Thrown headers_sent_error else Normal tt)
    end.
Proof.
  unfold Unsecured.handler. rewrite or_else_cases.
  change {| opt_req := req |} with (delegate_options env req).
  generalize (delegate_options env req) as o. intros o. cbv zeta.
  unfold run, try_catch, call, mbind, Js_bind, emit, mret, Js_ret, fresh.
  simpl.
  destruct (start o) as [|err|]; simpl; [reflexivity| |reflexivity].
  unfold res_json. simpl. now destruct (starts_response start o).
Qed.

Lemma unsecured_invocations :
  invocations (trace (Unsecured.handler env start req)) =
    [delegate_options env req].
Proof. rewrite run_unsecured. cbv zeta. now destruct (start _). Qed.
End UnsecuredRuns.

(** ** What the secured handler's runs have in common *)

Section SecuredSummary.
Context (env : environment) (start : delegate).
Context (req : request).

(** The delegate is called at most once, and only with the options built
    from the environment and the request. *)
Lemma secured_invocations :
  invocations (trace (Secured.handler env start req)) =
    if Secured.unauthorized env req then []
    else if JS.truthy_opt (env !! "MOTHERDUCK_API_KEY")
         then [delegate_options env req] else [].
Proof.
  destruct (Secured.unauthorized env req) eqn:Hauth.
  { now rewrite run_unauthorized. }
  destruct (JS.truthy_opt (env !! "MOTHERDUCK_API_KEY")) eqn:Hkey.
  2:{ now rewrite run_missing_key. }
  rewrite run_delegate by assumption. cbv zeta.
  destruct (start _) as [|err|]; try reflexivity.
  now destruct (JS.get err "message").
Qed.

(** [res.status(401)] is called exactly on the unauthorized branch. *)
Lemma secured_answers_401 :
  answers_401 (Secured.handler env start req) <->
  Secured.unauthorized env req = true.
Proof.
  unfold answers_401.
  destruct (Secured.unauthorized env req) eqn:Hauth.
  { rewrite run_unauthorized by assumption. simpl. split; [easy|].
    intros _. apply list_elem_of_here. }
  split; [|discriminate]. intros H. exfalso. revert H.
  destruct (JS.truthy_opt (env !! "MOTHERDUCK_API_KEY")) eqn:Hkey.
  2:{ rewrite run_missing_key by assumption. simpl.
      rewrite list_elem_of_singleton. discriminate. }
  rewrite run_delegate by assumption. cbv zeta.
  destruct (start _) as [|err|]; simpl;
    [apply not_elem_of_nil| |apply not_elem_of_nil].
  destruct (JS.get err "message"); simpl;
    rewrite list_elem_of_singleton; discriminate.
Qed.
End SecuredSummary.

(** * The claims *)

(** C1. A request to the secured handler whose Authorization header is
    absent, or whose extracted token is empty or differs from
    API_BEARER_TOKEN, is answered with status 401 and the body
    [{ error: 'Unauthorized' }]; these two calls are all the handler does,
    and the delegate is not invoked. *)
Theorem secured_rejects_bad_token
    (env : environment) (start : delegate) (req : request) :
  headers req !! "authorization" = None
  \/ Secured.token req = []
  \/ env !! "API_BEARER_TOKEN" <> Some (Secured.token req) ->
  Secured.handler env start req =
    ([EStatus 401; EJson (error_body "Unauthorized")], Normal tt)
  /\ invocations (trace (Secured.handler env start req)) = [].
Proof.
  intros H.
  assert (Hauth : Secured.unauthorized env req = true).
  { apply unauthorized_true.
    destruct H as [H|[H|H]]; auto using token_absent_header. }
  rewrite run_unauthorized by assumption. now split.
Qed.

Lemma secured_rejects_bad_token_witness :
  let env : environment := {[ "API_BEARER_TOKEN"%string := JS.lit "abc123" ]} in
  let req := {| headers := {[ "authorization"%string := JS.lit "Bearer nope" ]} |} in
  let start := always Fulfilled false in
  Secured.handler env start req =
    ([EStatus 401; EJson (error_body "Unauthorized")], Normal tt)
  /\ invocations (trace (Secured.handler env start req)) = [].
Proof.
  intros env req start.
  apply (secured_rejects_bad_token env start req).
  right; right. vm_compute. discriminate.
Defined.

(** C2, as stated, fails at two kinds of input. With API_BEARER_TOKEN set
    to the empty string, a request whose extracted token is that same empty
    string is answered 401 and the delegate is not invoked; and with
    MOTHERDUCK_DATABASE set to the empty string, an accepted request makes
    the delegate run with database ["default"], not with the value of
    MOTHERDUCK_DATABASE. *)
Lemma equal_token_counterexample :
  let start := always Fulfilled false in
  (let env : environment :=
     <[ "API_BEARER_TOKEN"%string := JS.lit "" ]>
       {[ "MOTHERDUCK_API_KEY"%string := JS.lit "key" ]} in
   let req := {| headers := {[ "authorization"%string := JS.lit "Bearer " ]} |} in
   env !! "API_BEARER_TOKEN" = Some (Secured.token req)
   /\ env !! "MOTHERDUCK_API_KEY" = Some (JS.lit "key")
   /\ Secured.handler env start req =
        ([EStatus 401; EJson (error_body "Unauthorized")], Normal tt)
   /\ invocations (trace (Secured.handler env start req)) = [])
  /\
  (let env : environment :=
     <[ "API_BEARER_TOKEN"%string := JS.lit "abc123" ]>
       (<[ "MOTHERDUCK_DATABASE"%string := JS.lit "" ]>
          {[ "MOTHERDUCK_API_KEY"%string := JS.lit "key" ]}) in
   let req :=
     {| headers := {[ "authorization"%string := JS.lit "Bearer abc123" ]} |} in
   env !! "API_BEARER_TOKEN" = Some (Secured.token req)
   /\ env !! "MOTHERDUCK_API_KEY" = Some (JS.lit "key")
   /\ env !! "MOTHERDUCK_DATABASE" = Some (JS.lit "")
   /\ invocations (trace (Secured.handler env start req)) =
        [{| opt_req := req; opt_token := Some (JS.lit "key");
            opt_database := JS.lit "default" |}]).
Proof. vm_compute. repeat split. Qed.

(** C2, amended. A request to the secured handler whose extracted token is
    not empty and equals API_BEARER_TOKEN, with MOTHERDUCK_API_KEY set to a
    non-empty value, makes the handler invoke the delegate exactly once, as
    its first call, with token MOTHERDUCK_API_KEY and with database
    MOTHERDUCK_DATABASE where that is set and not empty, ["default"]
    otherwise. *)
Theorem secured_delegates_once
    (env : environment) (start : delegate) (req : request)
    (key : jsstring) :
  Secured.token req <> [] ->
  env !! "API_BEARER_TOKEN" = Some (Secured.token req) ->
  env !! "MOTHERDUCK_API_KEY" = Some key ->
  key <> [] ->
  let options :=
    {| opt_req := req;
       opt_token := Some key;
       opt_database :=
         match env !! "MOTHERDUCK_DATABASE" with
         | Some (c :: d) => c :: d
         | _ => JS.lit "default"
         end |} in
  invocations (trace (Secured.handler env start req)) = [options]
  /\ exists rest, trace (Secured.handler env start req) = EStart options :: rest.
Proof.
  intros Htok Hsecret Hkey Hne options.
  assert (Hauth : Secured.unauthorized env req = false)
    by now apply unauthorized_false.
  assert (Htruthy : JS.truthy_opt (env !! "MOTHERDUCK_API_KEY") = true).
  { rewrite Hkey. simpl. apply not_false_iff_true. now rewrite truthy_false. }
  assert (Ho : delegate_options env req = options).
  { unfold delegate_options, options. now rewrite Hkey. }
  split.
  - now rewrite secured_invocations, Hauth, Htruthy, Ho.
  - rewrite run_delegate by assumption. cbv zeta. rewrite Ho.
    destruct (start options) as [|err|]; [eauto| |eauto].
    destruct (JS.get err "message"); eauto.
Qed.

Lemma secured_delegates_once_witness :
  let env : environment :=
    <[ "API_BEARER_TOKEN"%string := JS.lit "abc123" ]>
      (<[ "MOTHERDUCK_DATABASE"%string := JS.lit "sales" ]>
         {[ "MOTHERDUCK_API_KEY"%string := JS.lit "key" ]}) in
  let req :=
    {| headers := {[ "authorization"%string := JS.lit "Bearer abc123" ]} |} in
  let start := always Fulfilled false in
  let options :=
    {| opt_req := req; opt_token := Some (JS.lit "key");
       opt_database := JS.lit "sales" |} in
  invocations (trace (Secured.handler env start req)) = [options]
  /\ exists rest, trace (Secured.handler env start req) = EStart options :: rest.
Proof.
  intros env req start options.
  apply (secured_delegates_once env start req (JS.lit "key")).
  - vm_compute. discriminate.
  - vm_compute. reflexivity.
  - vm_compute. reflexivity.
  - vm_compute. discriminate.
Defined.

(** C3, as stated, fails for a request with a wrong token: the token check
    comes first, and the answer is 401 although MOTHERDUCK_API_KEY is not
    set. *)
Lemma missing_key_counterexample :
  let env : environment := {[ "API_BEARER_TOKEN"%string := JS.lit "abc123" ]} in
  let req := {| headers := {[ "authorization"%string := JS.lit "Bearer wrong" ]} |} in
  let start := always Fulfilled false in
  env !! "MOTHERDUCK_API_KEY" = None
  /\ Secured.handler env start req =
       ([EStatus 401; EJson (error_body "Unauthorized")], Normal tt).
Proof. vm_compute. split; reflexivity. Qed.

(** C3, amended. A request to the secured handler that passes the token
    check (its extracted token is not empty and equals API_BEARER_TOKEN) is
    answered, when MOTHERDUCK_API_KEY is unset or empty, with status 500 and
    the body [{ error: 'Missing MOTHERDUCK_API_KEY env var' }], and the
    delegate is not invoked. *)
Theorem secured_missing_key
    (env : environment) (start : delegate) (req : request) :
  env !! "MOTHERDUCK_API_KEY" = None \/ env !! "MOTHERDUCK_API_KEY" = Some [] ->
  Secured.token req <> [] ->
  env !! "API_BEARER_TOKEN" = Some (Secured.token req) ->
  Secured.handler env start req =
    ([EStatus 500; EJson (error_body "Missing MOTHERDUCK_API_KEY env var")],
     Normal tt)
  /\ invocations (trace (Secured.handler env start req)) = [].
Proof.
  intros Hkey Htok Hsecret.
  rewrite run_missing_key.
  - now split.
  - now apply unauthorized_false.
  - now apply truthy_opt_false.
Qed.

Lemma secured_missing_key_witness :
  let env : environment :=
    <[ "API_BEARER_TOKEN"%string := JS.lit "abc123" ]>
      {[ "MOTHERDUCK_API_KEY"%string := JS.lit "" ]} in
  let req :=
    {| headers := {[ "authorization"%string := JS.lit "Bearer abc123" ]} |} in
  let start := always Fulfilled false in
  Secured.handler env start req =
    ([EStatus 500; EJson (error_body "Missing MOTHERDUCK_API_KEY env var")],
     Normal tt)
  /\ invocations (trace (Secured.handler env start req)) = [].
Proof.
  intros env req start.
  apply (secured_missing_key env start req).
  - right. vm_compute. reflexivity.
  - vm_compute. discriminate.
  - vm_compute. reflexivity.
Defined.

(** C4, as stated, fails for a header that does not start with
    ["Bearer "]: ["abc123"] yields the token ["abc123"] (and is accepted
    when that is the secret), where the prefix reading yields no token; and
    for ["Basic Bearer abc123"] the token is ["Basic abc123"], the header
    without its first ["Bearer "]. *)
Lemma token_prefix_counterexample :
  (let req := {| headers := {[ "authorization"%string := JS.lit "abc123" ]} |} in
   let env : environment := {[ "API_BEARER_TOKEN"%string := JS.lit "abc123" ]} in
   Secured.token req = JS.lit "abc123"
   /\ token_after_prefix req = []
   /\ Secured.unauthorized env req = false)
  /\
  (let req :=
     {| headers := {[ "authorization"%string := JS.lit "Basic Bearer abc123" ]} |} in
   Secured.token req = JS.lit "Basic abc123"
   /\ token_after_prefix req = []).
Proof. vm_compute. repeat split. Qed.

(** C4, amended. The token used in the authorization comparison is the
    Authorization header (the empty string when the header is absent) with
    its first occurrence of ["Bearer "] removed, wherever that occurrence
    starts, and surrounding whitespace trimmed. For a header that starts
    with ["Bearer "] this is the trimmed rest of the header; a header in
    which ["Bearer "] does not occur yields the trimmed header itself. *)
Theorem token_extraction (req : request) :
  (headers req !! "authorization" = None -> Secured.token req = [])
  /\ (forall t,
        headers req !! "authorization" = Some (JS.lit "Bearer " ++ t) ->
        Secured.token req = JS.trim t
        /\ Secured.token req = token_after_prefix req)
  /\ (forall a b,
        headers req !! "authorization" = Some (a ++ JS.lit "Bearer " ++ b) ->
        (forall a' b',
           a ++ JS.lit "Bearer " ++ b = a' ++ JS.lit "Bearer " ++ b' ->
           (length a <= length a')%nat) ->
        Secured.token req = JS.trim (a ++ b))
  /\ (forall h,
        headers req !! "authorization" = Some h ->
        (forall a b, h <> a ++ JS.lit "Bearer " ++ b) ->
        Secured.token req = JS.trim h).
Proof.
  repeat split.
  - apply token_absent_header.
  - now rewrite (token_present req _ H), replace_prefix.
  - rewrite (token_present req _ H), replace_prefix.
    unfold token_after_prefix.
    now rewrite (authHeader_present req _ H), strip_prefix_app.
  - intros a b H Hfirst. now rewrite (token_present req _ H), replace_first.
  - intros h H Habs. now rewrite (token_present req _ H), replace_absent.
Qed.

Lemma token_extraction_witness :
  let req :=
    {| headers := {[ "authorization"%string := JS.lit "Bearer  abc123  " ]} |} in
  Secured.token req = JS.trim (JS.lit " abc123  ")
  /\ Secured.token req = token_after_prefix req.
Proof.
  intros req.
  apply (proj1 (proj2 (token_extraction req)) (JS.lit " abc123  ")).
  vm_compute. reflexivity.
Defined.




(** C6. With no environment variable set, the unsecured handler validates
    nothing: whatever the request, its first call is the delegate, invoked
    once, with token [undefined] and database ["default"]. *)
Theorem unsecured_passes_through
    (start : delegate) (req : request) :
  let options :=
    {| opt_req := req; opt_token := None; opt_database := JS.lit "default" |} in
  invocations (trace (Unsecured.handler ∅ start req)) = [options]
  /\ exists rest, trace (Unsecured.handler ∅ start req) = EStart options :: rest.
Proof.
  intros options.
  assert (Ho : delegate_options ∅ req = options) by reflexivity.
  split.
  - now rewrite unsecured_invocations.
  - rewrite run_unsecured. cbv zeta. rewrite Ho.
    destruct (start options); eauto.
Qed.

(** C7. With API_BEARER_TOKEN equal to ["abc123"], the header
    ["Bearer  abc123  "] yields the token ["abc123"], the comparison
    succeeds and no 401 is produced. *)
Theorem padded_token_accepted
    (env : environment) (start : delegate) (req : request) :
  headers req !! "authorization" = Some (JS.lit "Bearer  abc123  ") ->
  env !! "API_BEARER_TOKEN" = Some (JS.lit "abc123") ->
  Secured.token req = JS.lit "abc123"
  /\ Secured.unauthorized env req = false
  /\ ~ answers_401 (Secured.handler env start req).
Proof.
  intros Hhdr Hsecret.
  assert (Htok : Secured.token req = JS.lit "abc123")
    by now rewrite (token_present req _ Hhdr).
  assert (Hauth : Secured.unauthorized env req = false).
  { apply unauthorized_false. rewrite Htok. split; [discriminate|assumption]. }
  repeat split; try assumption.
  rewrite secured_answers_401, Hauth. discriminate.
Qed.

Lemma padded_token_accepted_witness :
  let env : environment := {[ "API_BEARER_TOKEN"%string := JS.lit "abc123" ]} in
  let req :=
    {| headers := {[ "authorization"%string := JS.lit "Bearer  abc123  " ]} |} in
  let start := always Fulfilled false in
  Secured.token req = JS.lit "abc123"
  /\ Secured.unauthorized env req = false
  /\ ~ answers_401 (Secured.handler env start req).
Proof.
  intros env req start.
  apply (padded_token_accepted env start req); vm_compute; reflexivity.
Defined.

(** C8. The authorization outcome of the secured handler (a 401 answer, or
    going on to the next check) is a function of the Authorization header
    and the environment: two invocations under the same environment, for
    requests with the same Authorization header, agree on it, whatever else
    the requests carry and however the delegate behaves in either. *)
Theorem authorization_deterministic
    (env : environment) (start1 start2 : delegate)
    (req1 req2 : request) :
  headers req1 !! "authorization" = headers req2 !! "authorization" ->
  Secured.unauthorized env req1 = Secured.unauthorized env req2
  /\ (answers_401 (Secured.handler env start1 req1) <->
      answers_401 (Secured.handler env start2 req2)).
Proof.
  intros Hhdr.
  assert (Hauth : Secured.unauthorized env req1 = Secured.unauthorized env req2).
  { unfold Secured.unauthorized, Secured.token, Secured.authHeader.
    now rewrite Hhdr. }
  split; [assumption|].
  now rewrite !secured_answers_401, Hauth.
Qed.

Lemma authorization_deterministic_witness :
  let env : environment := {[ "API_BEARER_TOKEN"%string := JS.lit "abc123" ]} in
  let req1 :=
    {| headers := {[ "authorization"%string := JS.lit "Bearer abc123" ]} |} in
  let req2 :=
    {| headers := <[ "accept"%string := JS.lit "text/event-stream" ]>
                    {[ "authorization"%string := JS.lit "Bearer abc123" ]} |} in
  let start1 := always Fulfilled false in
  let start2 := always (Rejected JS.Null) false in
  Secured.unauthorized env req1 = Secured.unauthorized env req2
  /\ (answers_401 (Secured.handler env start1 req1) <->
      answers_401 (Secured.handler env start2 req2)).
Proof.
  intros env req1 req2 start1 start2.
  apply (authorization_deterministic env start1 start2 req1 req2).
  vm_compute. reflexivity.
Defined.

(** C9. With API_BEARER_TOKEN unset, every request to the secured handler,
    whatever its Authorization header, is answered 401 and the delegate is
    not invoked. *)
Theorem unset_secret_rejects_all
    (env : environment) (start : delegate) (req : request) :
  env !! "API_BEARER_TOKEN" = None ->
  Secured.handler env start req =
    ([EStatus 401; EJson (error_body "Unauthorized")], Normal tt)
  /\ invocations (trace (Secured.handler env start req)) = [].
Proof.
  intros Hsecret.
  assert (Hauth : Secured.unauthorized env req = true).
  { apply unauthorized_true. right. now rewrite Hsecret. }
  rewrite run_unauthorized by assumption. now split.
Qed.

Lemma unset_secret_rejects_all_witness :
  let env : environment := {[ "MOTHERDUCK_API_KEY"%string := JS.lit "key" ]} in
  let req :=
    {| headers := {[ "authorization"%string := JS.lit "Bearer abc123" ]} |} in
  let start := always Fulfilled false in
  Secured.handler env start req =
    ([EStatus 401; EJson (error_body "Unauthorized")], Normal tt)
  /\ invocations (trace (Secured.handler env start req)) = [].
Proof.
  intros env req start.
  apply (unset_secret_rejects_all env start req).
  vm_compute. reflexivity.
Defined.

(** C10. With MOTHERDUCK_DATABASE set to the empty string, the unsecured
    handler invokes the delegate with database ["default"], every
    invocation of the delegate by the secured handler has database
    ["default"] (and there is one for an accepted request with the API key
    set), and either handler runs exactly as with the variable unset. *)
Theorem empty_database_is_default
    (env : environment) (start : delegate) (req : request) :
  env !! "MOTHERDUCK_DATABASE" = Some [] ->
  let options :=
    {| opt_req := req;
       opt_token := env !! "MOTHERDUCK_API_KEY";
       opt_database := JS.lit "default" |} in
  let unset : environment := delete "MOTHERDUCK_DATABASE" env in
  invocations (trace (Unsecured.handler env start req)) = [options]
  /\ (forall o, o ∈ invocations (trace (Secured.handler env start req)) ->
                o = options)
  /\ (Secured.unauthorized env req = false ->
      JS.truthy_opt (env !! "MOTHERDUCK_API_KEY") = true ->
      invocations (trace (Secured.handler env start req)) = [options])
  /\ Unsecured.handler env start req = Unsecured.handler unset start req
  /\ Secured.handler env start req = Secured.handler unset start req.
Proof.
  intros Hdb options unset.
  assert (Ho : delegate_options env req = options).
  { unfold delegate_options, options. now rewrite Hdb. }
  rewrite unsecured_invocations, secured_invocations, Ho.
  repeat split.
  - intros o.
    destruct (Secured.unauthorized env req);
      [now intros ?%not_elem_of_nil|].
    destruct (JS.truthy_opt (env !! "MOTHERDUCK_API_KEY"));
      [|now intros ?%not_elem_of_nil].
    now rewrite list_elem_of_singleton.
  - now intros -> ->.
  - unfold Unsecured.handler, unset.
    now rewrite lookup_delete_eq, lookup_delete_ne, Hdb.
  - unfold Secured.handler, Secured.unauthorized, unset.
    now rewrite lookup_delete_eq, !lookup_delete_ne, Hdb.
Qed.

Lemma empty_database_is_default_witness :
  let env : environment :=
    <[ "API_BEARER_TOKEN"%string := JS.lit "abc123" ]>
      (<[ "MOTHERDUCK_DATABASE"%string := JS.lit "" ]>
         {[ "MOTHERDUCK_API_KEY"%string := JS.lit "key" ]}) in
  let req :=
    {| headers := {[ "authorization"%string := JS.lit "Bearer abc123" ]} |} in
  let start := always Fulfilled false in
  let options :=
    {| opt_req := req; opt_token := Some (JS.lit "key");
       opt_database := JS.lit "default" |} in
  invocations (trace (Unsecured.handler env start req)) = [options]
  /\ invocations (trace (Secured.handler env start req)) = [options].
Proof.
  intros env req start options.
  pose proof (empty_database_is_default env start req eq_refl)
    as (Hu & _ & Hs & _).
  split.
  - exact Hu.
  - apply Hs; vm_compute; reflexivity.
Defined.

(** * Further properties of the handlers *)

(** ** White space around the token *)

Lemma trimStart_blank (r : jsstring) : blank r -> JS.trimStart r = [].
Proof. induction 1 as [|c r Hc _ IH]; simpl; [reflexivity|]. now rewrite Hc. Qed.

Lemma trimStart_blank_app (l s : jsstring) :
  blank l -> JS.trimStart (l ++ s) = JS.trimStart s.
Proof. induction 1 as [|c l Hc _ IH]; simpl; [reflexivity|]. now rewrite Hc. Qed.

Lemma trimStart_app (s r : jsstring) :
  JS.trimStart (s ++ r) =
    match JS.trimStart s with
    | [] => JS.trimStart r
    | c :: u => (c :: u) ++ r
    end.
Proof.
  induction s as [|c s IH]; simpl.
  - now destruct (JS.trimStart r).
  - destruct (JS.is_white_space c); [assumption|reflexivity].
Qed.

Lemma trimEnd_blank_app (u r : jsstring) :
  blank r -> JS.trimEnd (u ++ r) = JS.trimEnd u.
Proof.
  intros Hr. unfold JS.trimEnd.
  rewrite rev_app_distr, trimStart_blank_app; [reflexivity|].
  now apply Forall_rev.
Qed.

(** Blanks at either end of a string do not change what [trim] returns. *)
Lemma trim_padded (l s r : jsstring) :
  blank l -> blank r -> JS.trim (l ++ s ++ r) = JS.trim s.
Proof.
  intros Hl Hr. unfold JS.trim.
  rewrite trimStart_blank_app, trimStart_app by assumption.
  destruct (JS.trimStart s) as [|c u].
  - now rewrite trimStart_blank.
  - now apply trimEnd_blank_app.
Qed.

(** ** Which secrets can be presented at all *)

(** X1. A secret that is empty, or that begins or ends with a white-space
    code unit (a trailing newline, say), locks every caller out: the token
    is trimmed before the comparison, so no request matches it, every
    request is answered 401 and the delegate is never invoked. *)
Theorem padded_secret_rejects_all
    (env : environment) (start : delegate) (req : request)
    (secret : jsstring) :
  env !! "API_BEARER_TOKEN" = Some secret ->
  secret = []
  \/ (exists c s, secret = c :: s /\ JS.is_white_space c = true)
  \/ (exists c s, secret = s ++ [c] /\ JS.is_white_space c = true) ->
  Secured.handler env start req =
    ([EStatus 401; EJson (error_body "Unauthorized")], Normal tt)
  /\ invocations (trace (Secured.handler env start req)) = [].
Proof.
  intros Hsecret Hbad.
  assert (Hauth : Secured.unauthorized env req = true).
  { apply unauthorized_true. rewrite Hsecret.
    destruct (Secured.token req) as [|c0 t0] eqn:Htok; [now left|right].
    intros [= ->]. unfold Secured.token in Htok.
    destruct Hbad as [Hbad|[(c & s & Hs & Hc)|(c & s & Hs & Hc)]].
    - discriminate.
    - injection Hs as -> ->. apply trim_head in Htok. congruence.
    - rewrite Hs in Htok. apply trim_last in Htok. congruence. }
  rewrite run_unauthorized by assumption. now split.
Qed.

Lemma padded_secret_rejects_all_witness :
  let secret := JS.lit "abc123" ++ [10] in
  let env : environment := {[ "API_BEARER_TOKEN"%string := secret ]} in
  let req :=
    {| headers := {[ "authorization"%string := JS.lit "Bearer " ++ secret ]} |} in
  let start := always Fulfilled false in
  Secured.handler env start req =
    ([EStatus 401; EJson (error_body "Unauthorized")], Normal tt)
  /\ invocations (trace (Secured.handler env start req)) = [].
Proof.
  intros secret env req start.
  apply (padded_secret_rejects_all env start req secret).
  - vm_compute. reflexivity.
  - right; right. exists 10, (JS.lit "abc123"). split; reflexivity.
Defined.

(** X2. A secret that is not empty and has no white space at either end
    is accepted when sent as ["Bearer "] followed by the secret, with any
    amount of white space before and after it: the token is the secret and
    no 401 is produced. *)
Theorem padded_bearer_accepted
    (env : environment) (start : delegate) (req : request)
    (secret l r : jsstring) :
  env !! "API_BEARER_TOKEN" = Some secret ->
  secret <> [] ->
  JS.trim secret = secret ->
  blank l -> blank r ->
  headers req !! "authorization" = Some (JS.lit "Bearer " ++ l ++ secret ++ r) ->
  Secured.token req = secret
  /\ Secured.unauthorized env req = false
  /\ ~ answers_401 (Secured.handler env start req).
Proof.
  intros Hsecret Hne Hfix Hl Hr Hhdr.
  assert (Htok : Secured.token req = secret).
  { rewrite (token_present req _ Hhdr), replace_prefix. simpl app.
    now rewrite trim_padded. }
  assert (Hauth : Secured.unauthorized env req = false).
  { apply unauthorized_false. now rewrite Htok. }
  repeat split; try assumption.
  rewrite secured_answers_401, Hauth. discriminate.
Qed.

Lemma padded_bearer_accepted_witness :
  let secret := JS.lit "s3cret" in
  let env : environment := {[ "API_BEARER_TOKEN"%string := secret ]} in
  let req :=
    {| headers := {[ "authorization"%string :=
                       JS.lit "Bearer " ++ [9; 32] ++ secret ++ [32; 160] ]} |} in
  let start := always Fulfilled false in
  Secured.token req = secret
  /\ Secured.unauthorized env req = false
  /\ ~ answers_401 (Secured.handler env start req).
Proof.
  intros secret env req start.
  apply (padded_bearer_accepted env start req secret [9; 32] [32; 160]).
  - vm_compute. reflexivity.
  - vm_compute. discriminate.
  - vm_compute. reflexivity.
  - repeat constructor.
  - repeat constructor.
  - vm_compute. reflexivity.
Defined.

(** X3. The ["Bearer "] scheme is not required: a header in which
    ["Bearer "] does not occur and whose trimmed value is the (non-empty)
    secret passes the token check just as well. *)
Theorem bare_secret_accepted
    (env : environment) (start : delegate) (req : request)
    (h : jsstring) :
  headers req !! "authorization" = Some h ->
  (forall a b, h <> a ++ JS.lit "Bearer " ++ b) ->
  JS.trim h <> [] ->
  env !! "API_BEARER_TOKEN" = Some (JS.trim h) ->
  Secured.unauthorized env req = false
  /\ ~ answers_401 (Secured.handler env start req).
Proof.
  intros Hhdr Habs Hne Hsecret.
  assert (Htok : Secured.token req = JS.trim h)
    by now rewrite (token_present req _ Hhdr), replace_absent.
  assert (Hauth : Secured.unauthorized env req = false).
  { apply unauthorized_false. now rewrite Htok. }
  split; [assumption|].
  rewrite secured_answers_401, Hauth. discriminate.
Qed.

(** Removing an occurrence shortens the string by the pattern's length, so
    a string that [replace] leaves at its length has no occurrence. *)
Lemma replace_occurrence_length (p a b : jsstring) :
  (length (JS.replace p [] (a ++ p ++ b)) + length p = length (a ++ p ++ b))%nat.
Proof.
  induction a as [|c a IH].
  - simpl app at 1 3. rewrite replace_prefix. simpl. rewrite !length_app. lia.
  - simpl app. simpl JS.replace.
    destruct (JS.strip_prefix p (c :: a ++ p ++ b)) as [r|] eqn:E.
    + apply strip_prefix_Some in E. rewrite E. simpl. rewrite !length_app. lia.
    + simpl. rewrite <- IH. lia.
Qed.

Lemma bare_secret_accepted_witness :
  let h := JS.lit " abc123 " in
  let env : environment := {[ "API_BEARER_TOKEN"%string := JS.lit "abc123" ]} in
  let req := {| headers := {[ "authorization"%string := h ]} |} in
  let start := always Fulfilled false in
  Secured.unauthorized env req = false
  /\ ~ answers_401 (Secured.handler env start req).
Proof.
  intros h env req start.
  apply (bare_secret_accepted env start req h).
  - vm_compute. reflexivity.
  - intros a b H.
    pose proof (replace_occurrence_length (JS.lit "Bearer ") a b) as Hlen.
    rewrite <- H in Hlen. vm_compute in Hlen. discriminate.
  - vm_compute. discriminate.
  - vm_compute. reflexivity.
Defined.

(** ** What reaches the delegate *)

(** X4. Whenever the secured handler invokes the delegate, the request
    passed the token check, and the options carry the request itself, a
    token that is MOTHERDUCK_API_KEY and is neither [undefined] nor empty,
    and a database name that is not empty. *)
Theorem secured_options_invariant
    (env : environment) (start : delegate) (req : request)
    (o : mcp_options) :
  o ∈ invocations (trace (Secured.handler env start req)) ->
  Secured.unauthorized env req = false
  /\ opt_req o = req
  /\ (exists key, key <> [] /\ env !! "MOTHERDUCK_API_KEY" = Some key
                  /\ opt_token o = Some key)
  /\ opt_database o <> [].
Proof.
  rewrite secured_invocations.
  destruct (Secured.unauthorized env req); [now intros ?%not_elem_of_nil|].
  destruct (JS.truthy_opt (env !! "MOTHERDUCK_API_KEY")) eqn:Hkey;
    [|now intros ?%not_elem_of_nil].
  rewrite list_elem_of_singleton. intros ->.
  unfold delegate_options. simpl.
  repeat split.
  - destruct (env !! "MOTHERDUCK_API_KEY") as [[|c key]|]; try discriminate.
    exists (c :: key). now repeat split.
  - now destruct (env !! "MOTHERDUCK_DATABASE") as [[|c d]|].
Qed.

Lemma secured_options_invariant_witness :
  let env : environment :=
    <[ "API_BEARER_TOKEN"%string := JS.lit "abc123" ]>
      {[ "MOTHERDUCK_API_KEY"%string := JS.lit "key" ]} in
  let req :=
    {| headers := {[ "authorization"%string := JS.lit "Bearer abc123" ]} |} in
  let start := always Fulfilled false in
  let o :=
    {| opt_req := req; opt_token := Some (JS.lit "key");
       opt_database := JS.lit "default" |} in
  Secured.unauthorized env req = false
  /\ opt_req o = req
  /\ (exists key, key <> [] /\ env !! "MOTHERDUCK_API_KEY" = Some key
                  /\ opt_token o = Some key)
  /\ opt_database o <> [].
Proof.
  intros env req start o.
  apply (secured_options_invariant env start req o).
  vm_compute. apply list_elem_of_here.
Defined.

(** X5. The unsecured handler checks nothing: for every environment,
    request and delegate its first call is the delegate, which it invokes
    exactly once, with MOTHERDUCK_API_KEY handed on as it is found
    ([undefined] when unset, the empty string when empty) and a database
    name that is not empty. *)
Theorem unsecured_always_delegates
    (env : environment) (start : delegate) (req : request) :
  exists o rest,
    trace (Unsecured.handler env start req) = EStart o :: rest
    /\ invocations (trace (Unsecured.handler env start req)) = [o]
    /\ opt_req o = req
    /\ opt_token o = env !! "MOTHERDUCK_API_KEY"
    /\ opt_database o <> []
    /\ (opt_database o = JS.lit "default"
        \/ env !! "MOTHERDUCK_DATABASE" = Some (opt_database o)).
Proof.
  exists (delegate_options env req).
  rewrite unsecured_invocations, run_unsecured. cbv zeta.
  assert (Hdb : opt_database (delegate_options env req) <> []
                /\ (opt_database (delegate_options env req) = JS.lit "default"
                    \/ env !! "MOTHERDUCK_DATABASE"
                       = Some (opt_database (delegate_options env req)))).
  { unfold delegate_options. simpl.
    destruct (env !! "MOTHERDUCK_DATABASE") as [[|c d]|]; split; auto; discriminate. }
  destruct Hdb as [Hdb1 Hdb2].
  destruct (start (delegate_options env req)); eexists; repeat split; eauto.
Qed.

(** X6. Once its two checks have passed, the secured handler delegates as
    the unsecured one does: both invoke the delegate with the same options,
    and unless the delegate's promise is rejected the two runs are equal. *)
Theorem handlers_agree_after_checks
    (env : environment) (start : delegate) (req : request) :
  Secured.unauthorized env req = false ->
  JS.truthy_opt (env !! "MOTHERDUCK_API_KEY") = true ->
  invocations (trace (Secured.handler env start req)) =
    invocations (trace (Unsecured.handler env start req))
  /\ ((forall err, start (delegate_options env req) <> Rejected err) ->
      Secured.handler env start req = Unsecured.handler env start req)
  /\ (forall err, start (delegate_options env req) = Rejected err ->
      logged (trace (Secured.handler env start req)) =
        logged (trace (Unsecured.handler env start req))
      /\ statuses (trace (Secured.handler env start req)) =
           statuses (trace (Unsecured.handler env start req))).
Proof.
  intros Hauth Hkey.
  rewrite secured_invocations, unsecured_invocations, Hauth, Hkey.
  rewrite run_delegate, run_unsecured by assumption. cbv zeta.
  repeat split.
  - intros Hok. destruct (start _) as [|err|]; try reflexivity.
    now destruct (Hok err).
  - rewrite H. now destruct (JS.get err "message").
  - rewrite H. now destruct (JS.get err "message").
Qed.

Lemma handlers_agree_after_checks_witness :
  let env : environment :=
    <[ "API_BEARER_TOKEN"%string := JS.lit "abc123" ]>
      {[ "MOTHERDUCK_API_KEY"%string := JS.lit "key" ]} in
  let req :=
    {| headers := {[ "authorization"%string := JS.lit "Bearer abc123" ]} |} in
  let start := always NeverSettles false in
  Secured.handler env start req = Unsecured.handler env start req.
Proof.
  intros env req start.
  apply (handlers_agree_after_checks env start req).
  - vm_compute. reflexivity.
  - vm_compute. reflexivity.
  - intros err. discriminate.
Defined.

(** ** How a run ends, and what it writes *)

Lemma get_message_None (err : JS.value) :
  JS.get err "message" = None <-> err = JS.Undefined \/ err = JS.Null.
Proof.
  destruct err; simpl; split; try discriminate; auto.
  all: intros [H|H]; discriminate.
Qed.

(** Case analysis on a run of the secured handler: rejected, missing key,
    or delegated with each way the delegate's promise can settle. *)
Ltac secured_cases env start req :=
  destruct (Secured.unauthorized env req) eqn:Hauth;
  [ rewrite (run_unauthorized env start req) by assumption
  | destruct (JS.truthy_opt (env !! "MOTHERDUCK_API_KEY")) eqn:Hkey;
    [ rewrite (run_delegate env start req) by assumption; cbv zeta;
      destruct (start (delegate_options env req)) as [|err|] eqn:Hstart;
      [ | destruct (JS.get err "message") as [details|] eqn:Hmsg | ]
    | rewrite (run_missing_key env start req) by assumption ] ].

(** X7. The unsecured handler catches whatever the delegate throws,
    [undefined] and [null] included: it logs the value, sets status 500 and
    calls [.json] with [{ error: 'Internal MCP Server Error' }]. When the
    delegate had not started the response, that is the answer and the run
    ends normally; when it had, [.json] throws and the run ends by Node's
    ERR_HTTP_HEADERS_SENT error. The handler stays suspended exactly when
    the delegate's promise never settles, and makes no call of its own on
    the response or the console unless that promise was rejected. *)
Theorem unsecured_catch_block
    (env : environment) (start : delegate) (req : request) :
  let run := Unsecured.handler env start req in
  let o := delegate_options env req in
  (forall err, start o = Rejected err ->
     trace run =
       [EStart o;
        EConsoleError [JS.Str (JS.lit "MotherDuck MCP Error:"); err];
        EStatus 500;
        EJson (error_body "Internal MCP Server Error")]
     /\ (starts_response start o = false -> outcome run = Normal tt)
     /\ (starts_response start o = true ->
         outcome run = Thrown headers_sent_error))
  /\ (outcome run = Suspended <-> start o = NeverSettles)
  /\ ((forall err, start o <> Rejected err) -> trace run = [EStart o]).
Proof.
  intros run o. subst run o.
  rewrite run_unsecured. cbv zeta. unfold trace, outcome.
  destruct (start (delegate_options env req)) as [|err|] eqn:Hstart; simpl.
  - repeat split; intros; simplify_eq; done.
  - split; [|split].
    + intros v [= <-]. split; [reflexivity|]. split; now intros ->.
    + split; [|discriminate].
      now destruct (starts_response start (delegate_options env req)).
    + intros H. now destruct (H err).
  - repeat split; intros; simplify_eq; done.
Qed.

Lemma unsecured_catch_block_witness :
  let env : environment := ∅ in
  let req := {| headers := ∅ |} in
  let start := always (Rejected JS.Undefined) false in
  let run := Unsecured.handler env start req in
  let o := delegate_options env req in
  trace run =
    [EStart o;
     EConsoleError [JS.Str (JS.lit "MotherDuck MCP Error:"); JS.Undefined];
     EStatus 500;
     EJson (error_body "Internal MCP Server Error")]
  /\ outcome run = Normal tt.
Proof.
  intros env req start run o.
  destruct (proj1 (unsecured_catch_block env start req) JS.Undefined eq_refl)
    as (Htr & Hok & _).
  split; [exact Htr | exact (Hok eq_refl)].
Defined.

(** X8. The secured handler's catch block reads [err.message] between
    [res.status(500)] and [.json]. When the delegate it invoked rejects
    with [undefined] or [null], that read throws a TypeError: the handler
    has logged the value and set the status but never calls [.json], and
    its own promise is rejected. When the delegate rejects with any other
    value after having started the response, [.json] is called and throws
    ERR_HTTP_HEADERS_SENT, which again rejects the handler's promise. *)
Theorem secured_catch_block_throws
    (env : environment) (start : delegate) (req : request)
    (o : mcp_options) (err : JS.value) :
  o ∈ invocations (trace (Secured.handler env start req)) ->
  start o = Rejected err ->
  let run := Secured.handler env start req in
  let log := EConsoleError [JS.Str (JS.lit "MotherDuck MCP Error:"); err] in
  (err = JS.Undefined \/ err = JS.Null ->
   run = ([EStart o; log; EStatus 500], Thrown JS.type_error)
   /\ bodies (trace run) = [])
  /\ (forall message,
        JS.get err "message" = Some message ->
        starts_response start o = true ->
        run = ([EStart o; log; EStatus 500;
                EJson (JS.Obj
                  [("error"%string, JS.Str (JS.lit "Internal MCP Server Error"));
                   ("details"%string, message)])],
               Thrown headers_sent_error)).
Proof.
  intros Ho Hrej run log. subst run log. revert Ho.
  rewrite secured_invocations.
  destruct (Secured.unauthorized env req) eqn:Hauth;
    [now intros ?%not_elem_of_nil|].
  destruct (JS.truthy_opt (env !! "MOTHERDUCK_API_KEY")) eqn:Hkey;
    [|now intros ?%not_elem_of_nil].
  rewrite list_elem_of_singleton. intros ->.
  rewrite run_delegate by assumption. cbv zeta. rewrite Hrej. split.
  - intros Hnull%get_message_None. now rewrite Hnull.
  - intros message Hmsg Hsent. now rewrite Hmsg, Hsent.
Qed.

Lemma secured_catch_block_throws_witness :
  let env : environment :=
    <[ "API_BEARER_TOKEN"%string := JS.lit "abc123" ]>
      {[ "MOTHERDUCK_API_KEY"%string := JS.lit "key" ]} in
  let req :=
    {| headers := {[ "authorization"%string := JS.lit "Bearer abc123" ]} |} in
  let start := always (Rejected JS.Null) true in
  let o :=
    {| opt_req := req; opt_token := Some (JS.lit "key");
       opt_database := JS.lit "default" |} in
  let run := Secured.handler env start req in
  run = ([EStart o;
          EConsoleError [JS.Str (JS.lit "MotherDuck MCP Error:"); JS.Null];
          EStatus 500],
         Thrown JS.type_error)
  /\ bodies (trace run) = [].
Proof.
  intros env req start o run.
  assert (Ho : o ∈ invocations (trace (Secured.handler env start req)))
    by (vm_compute; apply list_elem_of_here).
  apply (proj1 (secured_catch_block_throws env start req o JS.Null
                  Ho eq_refl)).
  now right.
Defined.

(** X9. What a run of the secured handler writes. It invokes the delegate
    at most once and only as its very first call, sets at most one status,
    401 or 500 and nothing else, and calls [.json] at most once and never
    without a status. A run that does not delegate consists of exactly one
    status and one body; a run that delegates to a delegate whose promise
    is not rejected writes nothing itself, neither to the response nor to
    the console. *)
Theorem secured_response_discipline
    (env : environment) (start : delegate) (req : request) :
  let tr := trace (Secured.handler env start req) in
  (length (invocations tr) <= 1)%nat
  /\ (length (bodies tr) <= length (statuses tr))%nat
  /\ (length (statuses tr) <= 1)%nat
  /\ (forall c, c ∈ statuses tr -> c = 401%Z \/ c = 500%Z)
  /\ (forall e rest, tr = e :: rest -> invocations rest = [])
  /\ (invocations tr = [] -> exists c b, tr = [EStatus c; EJson b])
  /\ (invocations tr <> [] ->
      (forall err, start (delegate_options env req) <> Rejected err) ->
      tr = [EStart (delegate_options env req)]).
Proof.
  intros tr. subst tr.
  secured_cases env start req; unfold trace; simpl.
  all: repeat split; intros; simplify_eq/=; try done; try lia; eauto.
  all: try (rewrite ?list_elem_of_singleton in *; subst; auto; fail).
  all: try (now apply not_elem_of_nil in H).
  all: try (now destruct (H0 err)).
Qed.

Lemma secured_response_discipline_witness :
  let env : environment :=
    <[ "API_BEARER_TOKEN"%string := JS.lit "abc123" ]>
      {[ "MOTHERDUCK_API_KEY"%string := JS.lit "key" ]} in
  let req :=
    {| headers := {[ "authorization"%string := JS.lit "Bearer abc123" ]} |} in
  let start := always Fulfilled false in
  trace (Secured.handler env start req) = [EStart (delegate_options env req)].
Proof.
  intros env req start.
  apply (secured_response_discipline env start req).
  - vm_compute. discriminate.
  - intros err. discriminate.
Defined.
